(** * Servo2D Landscape application header and the GStreamer plugin README

    A shallow embedding of the two artefacts of the repository fragment:

    - [support/magicleap/Servo2D/code/inc/Servo2D.h]: the declaration of the
      class [Servo2D], embedded as a declaration tree (module [Cpp] gives the
      declaration syntax and the C++ rules the statements below rely on,
      module [Servo2DHeader] the class itself, member by member, in source
      order);
    - [ports/gstplugin/README.md]: the shell snippets of the README, embedded
      line by line (module [GstPluginReadme]) and read through a small model
      of shell word splitting (module [Shell]). *)

From Stdlib Require Import ZArith String Ascii List Bool.
From stdpp Require Import base decidable option list strings gmap.

Import ListNotations.
Local Open Scope string_scope.
Local Open Scope list_scope.

(** ** C++ declarations *)

Module Cpp.

(** Types as they are written in declarations. A qualified name such as
    [lumin::Prism] is [TNamed ["lumin"] "Prism"]. *)
Inductive CType : Type :=
| TVoid
| TInt
| TBool
| TFloat
| TNamed (scope : list string) (name : string)
| TConst (t : CType)
| TPtr (t : CType)
| TLRef (t : CType)
| TRRef (t : CType).

#[global] Instance CType_eq_dec : EqDecision CType.
Proof. solve_decision. Defined.

Inductive Access : Type := Public | Protected | Private.

#[global] Instance Access_eq_dec : EqDecision Access.
Proof. solve_decision. Defined.

(** What a member function declaration names. *)
Inductive FnKind : Type :=
| Constructor
| Destructor
| AssignOp
| Method (name : string).

#[global] Instance FnKind_eq_dec : EqDecision FnKind.
Proof. solve_decision. Defined.

(** How a declaration ends inside the class body: with [;] (the definition,
    if any, lives in another file) or with [= delete;]. *)
Inductive FnDef : Type := DeclaredOnly | Deleted.

#[global] Instance FnDef_eq_dec : EqDecision FnDef.
Proof. solve_decision. Defined.

Record Param : Type := mkParam {
  p_type : CType;
  p_name : option string
}.

Record MemberFn : Type := mkFn {
  f_doc      : list string;     (* the lines of the doc comment above it *)
  f_access   : Access;
  f_virtual  : bool;            (* the keyword [virtual] is written *)
  f_ret      : option CType;    (* [None] for constructors and destructors *)
  f_kind     : FnKind;
  f_params   : list Param;
  f_const    : bool;            (* trailing [const] *)
  f_override : bool;            (* trailing [override] *)
  f_def      : FnDef
}.

(** Default member initializers that occur in the header. *)
Inductive Init : Type := InitNullptr.

Record Field : Type := mkField {
  d_access  : Access;
  d_static  : bool;
  d_mutable : bool;
  d_type    : CType;
  d_name    : string;
  d_init    : option Init
}.

Record Class : Type := mkClass {
  c_name      : string;
  c_bases     : list (Access * CType);
  c_functions : list MemberFn;
  c_fields    : list Field
}.

Record Header : Type := mkHeader {
  h_includes : list string;
  h_classes  : list Class
}.

Definition param_types (f : MemberFn) : list CType := map p_type (f_params f).

Definition method_name (f : MemberFn) : option string :=
  match f_kind f with
  | Method n => Some n
  | _ => None
  end.

(** The named member functions of a class (everything but constructors,
    the destructor and assignment operators), in declaration order. *)
Definition methods (c : Class) : list MemberFn :=
  filter (fun f => is_Some (method_name f)) (c_functions c).

Definition method_names (c : Class) : list string :=
  omap method_name (c_functions c).

Definition find_method (c : Class) (n : string) : option MemberFn :=
  find (fun f => bool_decide (method_name f = Some n)) (c_functions c).

(** Class names a header declares itself; every other named type it
    mentions comes from an included header. *)
Definition declared_types (h : Header) : list string := map c_name (h_classes h).

Fixpoint named_in (t : CType) : option (list string * string) :=
  match t with
  | TNamed sc n => Some (sc, n)
  | TConst t' | TPtr t' | TLRef t' | TRRef t' => named_in t'
  | _ => None
  end.

Definition external_type (h : Header) (t : CType) : bool :=
  match named_in t with
  | Some ([], n) => bool_decide (n ∉ declared_types h)
  | Some (_ :: _, _) => true
  | None => false
  end.

Definition is_pointer (t : CType) : bool :=
  match t with
  | TPtr _ => true
  | _ => false
  end.

(** *** Overriding

    The base class [lumin::LandscapeApp] comes from an included header of
    the host SDK. What matters of it here is the list of its virtual member
    functions. *)

Record VirtualFn : Type := mkVirtual {
  v_ret    : CType;
  v_name   : string;
  v_params : list CType;
  v_const  : bool
}.

Record BaseClass : Type := mkBase {
  b_type     : CType;
  b_virtuals : list VirtualFn
}.

(** A member function overrides a virtual function of the base when name,
    parameter types and const qualification agree, whether or not [virtual]
    or [override] is written. *)
Definition same_signature (v : VirtualFn) (f : MemberFn) : bool :=
  bool_decide (f_kind f = Method (v_name v))
  && bool_decide (param_types f = v_params v)
  && bool_decide (f_const f = v_const v).

Definition overrides (B : BaseClass) (f : MemberFn) : bool :=
  existsb (fun v => same_signature v f) (b_virtuals B).

(** A function is virtual when it says so or when it overrides. *)
Definition is_virtual (B : BaseClass) (f : MemberFn) : bool :=
  f_virtual f || overrides B f.

(** The class definition is well-formed against a base: the base is the
    one it derives from, a function marked [override] does override, and
    an overrider has the return type of what it overrides. *)
Definition override_ok (B : BaseClass) (f : MemberFn) : bool :=
  implb (f_override f) (overrides B f)
  && forallb (fun v => implb (same_signature v f)
                             (bool_decide (f_ret f = Some (v_ret v))))
             (b_virtuals B).

Definition accepts (B : BaseClass) (c : Class) : bool :=
  bool_decide (b_type B ∈ map snd (c_bases c))
  && forallb (override_ok B) (c_functions c).

(** *** Copy and move operations *)

Inductive Special : Type := CopyCtor | MoveCtor | CopyAssign | MoveAssign.

Definition self_type (c : Class) : CType := TNamed [] (c_name c).

Definition special_shape (c : Class) (s : Special) (f : MemberFn) : bool :=
  match s with
  | CopyCtor =>
      bool_decide (f_kind f = Constructor)
      && bool_decide (param_types f = [TLRef (TConst (self_type c))])
  | MoveCtor =>
      bool_decide (f_kind f = Constructor)
      && bool_decide (param_types f = [TRRef (self_type c)])
  | CopyAssign =>
      bool_decide (f_kind f = AssignOp)
      && bool_decide (param_types f = [TLRef (TConst (self_type c))])
  | MoveAssign =>
      bool_decide (f_kind f = AssignOp)
      && bool_decide (param_types f = [TRRef (self_type c)])
  end.

Definition declared_special (c : Class) (s : Special) : option MemberFn :=
  find (special_shape c s) (c_functions c).

Definition declares (c : Class) (s : Special) : bool :=
  bool_decide (is_Some (declared_special c s)).

Definition declares_destructor (c : Class) : bool :=
  existsb (fun f => bool_decide (f_kind f = Destructor)) (c_functions c).

(** What overload resolution finds for a copy or a move of an object of the
    class: a function defined by the user, the implicit memberwise one, a
    deleted one, or none (a move then falls back to the copy). *)
Inductive Availability : Type :=
| UserProvided
| Implicit
| IsDeleted
| NotDeclared.

Definition availability (c : Class) (s : Special) : Availability :=
  match declared_special c s with
  | Some f =>
      match f_def f with
      | Deleted => IsDeleted
      | DeclaredOnly => UserProvided
      end
  | None =>
      match s with
      | CopyCtor | CopyAssign =>
          if declares c MoveCtor || declares c MoveAssign
          then IsDeleted else Implicit
      | MoveCtor =>
          if declares c CopyCtor || declares c CopyAssign
             || declares c MoveAssign || declares_destructor c
          then NotDeclared else Implicit
      | MoveAssign =>
          if declares c CopyCtor || declares c CopyAssign
             || declares c MoveCtor || declares_destructor c
          then NotDeclared else Implicit
      end
  end.

(** *** Objects

    An object of a class is the store of its non-static data members. All
    data members of the header are pointers. *)

Inductive Ptr : Type :=
| PNull
| PAddr (a : N)
| PIndeterminate.

#[global] Instance Ptr_eq_dec : EqDecision Ptr.
Proof. solve_decision. Defined.

Abbreviation Obj := (gmap string Ptr).

(** The result of writing a copy or a move in a program. *)
Inductive CopyResult : Type :=
| IllFormed                  (* the program does not compile *)
| Memberwise (o : Obj)       (* the implicit operation: member by member *)
| ByUserCode.                (* decided by a definition in another file *)

Definition copy_with (c : Class) (s : Special) (src : Obj) : CopyResult :=
  match availability c s with
  | UserProvided => ByUserCode
  | Implicit => Memberwise src
  | IsDeleted | NotDeclared => IllFormed
  end.

Definition move_with (c : Class) (mv cp : Special) (src : Obj) : CopyResult :=
  match availability c mv with
  | UserProvided => ByUserCode
  | Implicit => Memberwise src
  | IsDeleted => IllFormed
  | NotDeclared => copy_with c cp src
  end.

(** [T b(a);], [T b(std::move(a));], [b = a;] and [b = std::move(a);]. *)
Definition copy_construct (c : Class) (src : Obj) : CopyResult :=
  copy_with c CopyCtor src.
Definition move_construct (c : Class) (src : Obj) : CopyResult :=
  move_with c MoveCtor CopyCtor src.
Definition copy_assign (c : Class) (dst src : Obj) : CopyResult :=
  copy_with c CopyAssign src.
Definition move_assign (c : Class) (dst src : Obj) : CopyResult :=
  move_with c MoveAssign CopyAssign src.

End Cpp.

(** ** The class [Servo2D] *)

Module Servo2DHeader.
Import Cpp.

Definition self : CType := TNamed [] "Servo2D".

Definition ctor : MemberFn :=
  mkFn ["Constructs the Landscape Application."]
       Public false None Constructor [] false false DeclaredOnly.

Definition dtor : MemberFn :=
  mkFn ["Destroys the Landscape Application."]
       Public true None Destructor [] false false DeclaredOnly.

Definition copy_ctor : MemberFn :=
  mkFn ["Disallows the copy constructor."]
       Public false None Constructor
       [mkParam (TLRef (TConst self)) None] false false Deleted.

Definition move_ctor : MemberFn :=
  mkFn ["Disallows the move constructor."]
       Public false None Constructor
       [mkParam (TRRef self) None] false false Deleted.

Definition copy_assignment : MemberFn :=
  mkFn ["Disallows the copy assignment operator."]
       Public false (Some (TLRef self)) AssignOp
       [mkParam (TLRef (TConst self)) None] false false Deleted.

Definition move_assignment : MemberFn :=
  mkFn ["Disallows the move assignment operator."]
       Public false (Some (TLRef self)) AssignOp
       [mkParam (TRRef self) None] false false Deleted.

Definition init : MemberFn :=
  mkFn ["Initializes the Landscape Application.";
        "@return - 0 on success, error code on failure."]
       Protected false (Some TInt) (Method "init") [] false true DeclaredOnly.

Definition deInit : MemberFn :=
  mkFn ["Deinitializes the Landscape Application.";
        "@return - 0 on success, error code on failure."]
       Protected false (Some TInt) (Method "deInit") [] false true DeclaredOnly.

Definition getInitialPrismSize : MemberFn :=
  mkFn ["Returns the initial size of the Prism";
        "Used in createPrism()."]
       Protected false (Some (TConst (TNamed ["glm"] "vec3")))
       (Method "getInitialPrismSize") [] true false DeclaredOnly.

Definition createInitialPrism : MemberFn :=
  mkFn ["Creates the prism, updates the private variable prism_ with the created prism."]
       Protected false (Some TVoid) (Method "createInitialPrism") []
       false false DeclaredOnly.

Definition spawnInitialScenes : MemberFn :=
  mkFn ["Initializes and creates the scene of all scenes marked as initially instanced"]
       Protected false (Some TVoid) (Method "spawnInitialScenes") []
       false false DeclaredOnly.

Definition updateLoop : MemberFn :=
  mkFn ["Run application login"]
       Protected true (Some TBool) (Method "updateLoop")
       [mkParam TFloat (Some "fDelta")] false true DeclaredOnly.

Definition eventListener : MemberFn :=
  mkFn ["Handle events from the server"]
       Protected true (Some TBool) (Method "eventListener")
       [mkParam (TPtr (TNamed ["lumin"] "ServerEvent")) (Some "event")]
       false true DeclaredOnly.

Definition prism_ : Field :=
  mkField Private false false (TPtr (TNamed ["lumin"] "Prism")) "prism_"
          (Some InitNullptr).

Definition prismSceneManager_ : Field :=
  mkField Private false false (TPtr (TNamed [] "PrismSceneManager"))
          "prismSceneManager_" (Some InitNullptr).

Definition Servo2D : Class :=
  mkClass "Servo2D"
    [(Public, TNamed ["lumin"] "LandscapeApp")]
    [ctor; dtor; copy_ctor; move_ctor; copy_assignment; move_assignment;
     init; deInit; getInitialPrismSize; createInitialPrism;
     spawnInitialScenes; updateLoop; eventListener]
    [prism_; prismSceneManager_].

Definition Servo2D_h : Header :=
  mkHeader
    ["lumin/LandscapeApp.h"; "lumin/Prism.h"; "lumin/event/ServerEvent.h";
     "SceneDescriptor.h"; "PrismSceneManager.h"]
    [Servo2D].

(** Modelled from the spec: the virtual interface of the base class
    [lumin::LandscapeApp], which [lumin/LandscapeApp.h] of the host SDK
    declares and the sources do not include. Section 6 of the spec gives the
    base class contract as [int init()], [int deInit()],
    [bool updateLoop(float)] and [bool eventListener(lumin::ServerEvent* event)]. *)
Definition LandscapeApp : BaseClass :=
  mkBase (TNamed ["lumin"] "LandscapeApp")
    [mkVirtual TInt "init" [] false;
     mkVirtual TInt "deInit" [] false;
     mkVirtual TBool "updateLoop" [TFloat] false;
     mkVirtual TBool "eventListener" [TPtr (TNamed ["lumin"] "ServerEvent")] false].

(** Modelled from the spec: the same base class as section 4 of the spec
    describes it, where all seven methods of [Servo2D] are "override points
    mandated by the host framework's base class". *)
Definition LandscapeApp_all : BaseClass :=
  mkBase (TNamed ["lumin"] "LandscapeApp")
    (b_virtuals LandscapeApp ++
     [mkVirtual (TConst (TNamed ["glm"] "vec3")) "getInitialPrismSize" [] true;
      mkVirtual TVoid "createInitialPrism" [] false;
      mkVirtual TVoid "spawnInitialScenes" [] false]).

End Servo2DHeader.

(** ** Shell commands as the README writes them *)

Module Shell.

Definition is_blank (c : ascii) : bool :=
  bool_decide (c = " "%char) || bool_decide (c = "009"%char).

Fixpoint last_char (s : string) : option ascii :=
  match s with
  | EmptyString => None
  | String c EmptyString => Some c
  | String _ s' => last_char s'
  end.

Fixpoint drop_last (s : string) : string :=
  match s with
  | EmptyString => EmptyString
  | String _ EmptyString => EmptyString
  | String c s' => String c (drop_last s')
  end.

(** A backslash at the end of a line continues the command on the next
    line; backslash and line break are both dropped. *)
Definition continued (l : string) : option string :=
  match last_char l with
  | Some c => if bool_decide (c = "\"%char) then Some (drop_last l) else None
  | None => None
  end.

Fixpoint logical_lines (ls : list string) : list string :=
  match ls with
  | [] => []
  | l :: rest =>
      match continued l with
      | Some l' =>
          match logical_lines rest with
          | [] => [l']
          | r :: rs => String.append l' r :: rs
          end
      | None => l :: logical_lines rest
      end
  end.

(** Word splitting at blanks (the snippets have no quoting). *)
Fixpoint words_from (acc : list ascii) (cs : list ascii) : list (list ascii) :=
  match cs with
  | [] => match acc with [] => [] | _ => [rev acc] end
  | c :: cs' =>
      if is_blank c
      then match acc with
           | [] => words_from [] cs'
           | _ => rev acc :: words_from [] cs'
           end
      else words_from (c :: acc) cs'
  end.

Definition words (s : string) : list string :=
  map string_of_list_ascii (words_from [] (list_ascii_of_string s)).

Definition between (lo hi : nat) (c : ascii) : bool :=
  (lo <=? nat_of_ascii c)%nat && (nat_of_ascii c <=? hi)%nat.

Definition name_start (c : ascii) : bool :=
  between 65 90 c || between 97 122 c || bool_decide (c = "_"%char).

Definition name_char (c : ascii) : bool := name_start c || between 48 57 c.

Definition is_name (s : string) : bool :=
  match s with
  | EmptyString => false
  | String c s' => name_start c && forallb name_char (list_ascii_of_string s')
  end.

Fixpoint split_at_eq (s : string) : option (string * string) :=
  match s with
  | EmptyString => None
  | String c s' =>
      if bool_decide (c = "="%char) then Some (EmptyString, s')
      else match split_at_eq s' with
           | Some (n, v) => Some (String c n, v)
           | None => None
           end
  end.

(** A word [NAME=value] in front of the command name sets [NAME] in the
    environment of that command. *)
Definition assignment_of (w : string) : option (string * string) :=
  match split_at_eq w with
  | Some (n, v) => if is_name n then Some (n, v) else None
  | None => None
  end.

Record Command : Type := mkCommand {
  cmd_env  : list (string * string);
  cmd_argv : list string
}.

Fixpoint parse_words (ws : list string) : Command :=
  match ws with
  | [] => mkCommand [] []
  | w :: ws' =>
      match assignment_of w with
      | Some a =>
          let c := parse_words ws' in mkCommand (a :: cmd_env c) (cmd_argv c)
      | None => mkCommand [] (w :: ws')
      end
  end.

Definition parse (line : string) : Command := parse_words (words line).

Definition program (c : Command) : option string := head (cmd_argv c).
Definition arguments (c : Command) : list string := tail (cmd_argv c).

(** The variables a command sets. *)
Definition assigned_vars (c : Command) : gset string :=
  list_to_set (map fst (cmd_env c)).

(** The longest name at the start of a text. *)
Fixpoint take_name (cs : list ascii) : list ascii :=
  match cs with
  | c :: cs' => if name_char c then c :: take_name cs' else []
  | [] => []
  end.

(** *** gst-launch pipelines: elements separated by [!] *)

Fixpoint split_on (sep : string) (ws : list string) : list (list string) :=
  match ws with
  | [] => [[]]
  | w :: ws' =>
      if bool_decide (w = sep) then [] :: split_on sep ws'
      else match split_on sep ws' with
           | seg :: segs => (w :: seg) :: segs
           | [] => [[w]]
           end
  end.

(** The inverse of [split_on]: the segments with the separator between
    them. *)
Fixpoint join_with (sep : string) (segs : list (list string)) : list string :=
  match segs with
  | [] => []
  | [seg] => seg
  | seg :: segs' => seg ++ sep :: join_with sep segs'
  end.

Record Element : Type := mkElement {
  e_factory : string;
  e_props   : list (string * string)
}.

Definition element_of (seg : list string) : option Element :=
  match seg with
  | [] => None
  | n :: ps => Some (mkElement n (omap split_at_eq ps))
  end.

Definition pipeline (c : Command) : list Element :=
  omap element_of (split_on "!" (arguments c)).

Definition factories (c : Command) : list string := map e_factory (pipeline c).

(** *** Parameter expansion

    [rho] gives every variable its value (the empty string when unset). A
    [$] followed by a name is replaced by the value of that name; [skip]
    counts the characters of the name still to pass over. *)

Definition value_of (rho : string → string) (n : list ascii) : list ascii :=
  list_ascii_of_string (rho (string_of_list_ascii n)).

Fixpoint expand_chars (rho : string → string) (skip : nat) (cs : list ascii)
  : list ascii :=
  match cs with
  | [] => []
  | c :: cs' =>
      match skip with
      | S k => expand_chars rho k cs'
      | O =>
          if bool_decide (c = "$"%char)
          then match take_name cs' with
               | [] => c :: expand_chars rho 0 cs'
               | n => value_of rho n ++ expand_chars rho (length n) cs'
               end
          else c :: expand_chars rho 0 cs'
      end
  end.

Definition expand (rho : string → string) (w : string) : string :=
  string_of_list_ascii (expand_chars rho 0 (list_ascii_of_string w)).

(** The environment a command runs in, after expansion. *)
Definition expanded_env (rho : string → string) (c : Command)
  : list (string * string) :=
  map (fun a => (fst a, expand rho (snd a))) (cmd_env c).

(** *** Paths and search paths *)

(** The fields of a text between occurrences of a separator character. *)
Fixpoint fields (sep : ascii) (cs : list ascii) : list (list ascii) :=
  match cs with
  | [] => [[]]
  | c :: cs' =>
      if bool_decide (c = sep) then [] :: fields sep cs'
      else match fields sep cs' with
           | f :: fs => (c :: f) :: fs
           | [] => [[c]]
           end
  end.

(** How often a character occurs in a text. *)
Definition occurrences (sep : ascii) (cs : list ascii) : nat :=
  length (filter (fun c => c = sep) cs).

(** The entries of a colon-separated search path such as
    [GST_PLUGIN_PATH] or [LD_LIBRARY_PATH]. *)
Definition path_entries (v : string) : list string :=
  map string_of_list_ascii (fields ":"%char (list_ascii_of_string v)).

(** A relative path seen from the directory [pwd]. *)
Definition resolve (pwd rel : string) : string :=
  String.append pwd (String.append "/" rel).

Fixpoint join_chars (sep : ascii) (fs : list (list ascii)) : list ascii :=
  match fs with
  | [] => []
  | [f] => f
  | f :: fs' => f ++ sep :: join_chars sep fs'
  end.

(** The directory part and the last component of a path. *)
Definition dirname (p : string) : string :=
  string_of_list_ascii
    (join_chars "/"%char (removelast (fields "/"%char (list_ascii_of_string p)))).

Definition basename (p : string) : string :=
  string_of_list_ascii (List.last (fields "/"%char (list_ascii_of_string p)) []).

(** *** File name patterns

    The one metacharacter the snippets use is [*]: it stands for any run of
    characters that does not cross a [/]. *)
Fixpoint glob (p s : list ascii) : bool :=
  match p with
  | [] => match s with [] => true | _ => false end
  | c :: p' =>
      if bool_decide (c = "*"%char)
      then (fix star (s : list ascii) : bool :=
              glob p' s
              || match s with
                 | [] => false
                 | d :: s' => negb (bool_decide (d = "/"%char)) && star s'
                 end) s
      else match s with
           | d :: s' => bool_decide (c = d) && glob p' s'
           | [] => false
           end
  end.

Definition matches (pattern name : string) : bool :=
  glob (list_ascii_of_string pattern) (list_ascii_of_string name).

End Shell.

(** ** The README of the GStreamer plugin *)

Module GstPluginReadme.
Import Shell.

(** A fenced code block: the section it stands in, the sentence that leads
    to it, and its lines as written. *)
Record Snippet : Type := mkSnippet {
  s_section : string;
  s_lead    : string;
  s_lines   : list string
}.

Definition build : Snippet :=
  mkSnippet "Build" ""
    ["./mach build -r -p servo-gst-plugin"].

Definition install_mkdir : Snippet :=
  mkSnippet "Install" "so we need to have a directory just for plugins:"
    ["mkdir target/gstplugins"].

Definition install_cp : Snippet :=
  mkSnippet "Install" "To install:"
    ["cp target/release/libgstservoplugin.* target/gstplugins"].

Definition run : Snippet :=
  mkSnippet "Run" ""
    ["GST_PLUGIN_PATH=target/gstplugins \";
     "  gst-launch-1.0 servosrc \";
     "    ! queue \";
     "    ! videoflip video-direction=vert \";
     "    ! autovideosink"].

Definition inspect_element : Snippet :=
  mkSnippet "Troubleshooting" "First try:"
    ["GST_PLUGIN_PATH=target/gstplugins \";
     "  gst-inspect-1.0 servosrc"].

Definition inspect_file : Snippet :=
  mkSnippet "Troubleshooting" "If that doesn't work, try:"
    ["GST_PLUGIN_PATH=target/gstplugins \";
     "  gst-inspect-1.0 target/gstplugins/libgstservoplugin.so"].

Definition clear_cache : Snippet :=
  mkSnippet "Troubleshooting"
    "If you get reports about the plugin being blacklisted, remove the (global!) gstreamer cache, e.g. under Linux:"
    ["rm -r ~/.cache/gstreamer-1.0"].

Definition library_path : Snippet :=
  mkSnippet "Troubleshooting"
    "If you get complaints about not being able to find libraries, set `LD_LIBRARY_PATH`, e.g. to use Servo's Linux gstreamer:"
    ["LD_LIBRARY_PATH=$PWD/support/linux/gstreamer/gst/lib"].

Definition preload : Snippet :=
  mkSnippet "Troubleshooting" "The fix is to preload the plugin:"
    ["LD_PRELOAD=$PWD/target/gstplugins/libgstservoplugin.so"].

Definition scanner : Snippet :=
  mkSnippet "Troubleshooting"
    "You may need to set `GST_PLUGIN_SCANNER`, e.g. to use Servo's:"
    ["GST_PLUGIN_SCANNER=$PWD/support/linux/gstreamer/gst/libexec/gstreamer-1.0/gst-plugin-scanner"].

Definition plugin_path : Snippet :=
  mkSnippet "Troubleshooting"
    "You may need to include other directories on the plugin search path, e.g. Servo's gstreamer:"
    ["GST_PLUGIN_PATH=$PWD/target/gstplugins/:$PWD/support/linux/gstreamer/gst/lib"].

Definition all_together : Snippet :=
  mkSnippet "Troubleshooting" "Putting that all together:"
    ["GST_PLUGIN_SCANNER=$PWD/support/linux/gstreamer/gst/libexec/gstreamer-1.0/gst-plugin-scanner \";
     "LD_PRELOAD=$PWD/target/gstplugins/libgstservoplugin.so \";
     "GST_PLUGIN_PATH=$PWD/target/gstplugins/:$PWD/support/linux/gstreamer/gst/lib \";
     "LD_LIBRARY_PATH=$PWD/support/linux/gstreamer/gst/lib \";
     "  gst-launch-1.0 servosrc \";
     "    ! queue \";
     "    ! videoflip video-direction=vert \";
     "    ! autovideosink"].

Definition README : list Snippet :=
  [build; install_mkdir; install_cp; run; inspect_element; inspect_file;
   clear_cache; library_path; preload; scanner; plugin_path; all_together].

Definition commands_of (sn : Snippet) : list Command :=
  map parse (logical_lines (s_lines sn)).

Definition commands : list Command := concat (map commands_of README).

Definition runs (prog : string) (c : Command) : bool :=
  bool_decide (program c = Some prog).

(** The invocations of the GStreamer tools, and the commands that touch the
    environment at all. *)
Definition launches : list Command := filter (fun c => runs "gst-launch-1.0" c = true) commands.
Definition inspections : list Command := filter (fun c => runs "gst-inspect-1.0" c = true) commands.

Definition plugin_variables : gset string :=
  {[ "GST_PLUGIN_PATH"; "GST_PLUGIN_SCANNER"; "LD_LIBRARY_PATH"; "LD_PRELOAD" ]}.

Definition configured_variables : gset string :=
  ⋃ (map assigned_vars commands).

(** The single command of a snippet that has one. *)
Definition command_of (sn : Snippet) : Command :=
  default (mkCommand [] []) (head (commands_of sn)).

(** The value a command gives to a variable. *)
Fixpoint setting (n : string) (env : list (string * string)) : option string :=
  match env with
  | [] => None
  | (m, v) :: env' => if bool_decide (m = n) then Some v else setting n env'
  end.

(** The commands that run a GStreamer tool. *)
Definition gst_tool (c : Command) : bool :=
  match program c with
  | Some p => String.prefix "gst-" p
  | None => false
  end.

End GstPluginReadme.


(** ** What the doc comments say about return values *)

Module ReturnDoc.
Import Cpp Shell.


(** A [@return] line is read as a list of clauses "<what> on <when>":
    what is returned, a number or "error code", and when, "success" or
    "failure". *)
Inductive When : Type := OnSuccess | OnFailure.

#[global] Instance When_eq_dec : EqDecision When.
Proof. solve_decision. Defined.

Inductive What : Type :=
| Code (n : Z)
| ErrorCode.

Record Clause : Type := mkClause {
  cl_what : What;
  cl_when : When
}.

Definition digit (c : ascii) : option Z :=
  if between 48 57 c then Some (Z.of_nat (nat_of_ascii c - 48)) else None.

Fixpoint number_from (acc : Z) (cs : list ascii) : option Z :=
  match cs with
  | [] => Some acc
  | c :: cs' =>
      match digit c with
      | Some d => number_from (10 * acc + d)%Z cs'
      | None => None
      end
  end.

Definition numeral (w : string) : option Z :=
  match list_ascii_of_string w with
  | [] => None
  | cs => number_from 0 cs
  end.

(** A word without the comma or full stop that ends it. *)
Definition bare (w : string) : string :=
  match last_char w with
  | Some c =>
      if bool_decide (c = ","%char) || bool_decide (c = "."%char)
      then drop_last w else w
  | None => w
  end.

Definition when_of (w : string) : option When :=
  if bool_decide (bare w = "success") then Some OnSuccess
  else if bool_decide (bare w = "failure") then Some OnFailure
  else None.

(** The clause that starts at the head of a list of words, if one does:
    "error code on <when>" or "<number> on <when>". *)
Definition clause_at (ws : list string) : option Clause :=
  match ws with
  | w1 :: w2 :: w3 :: rest =>
      if bool_decide (w1 = "error") && bool_decide (w2 = "code")
         && bool_decide (w3 = "on")
      then match rest with
           | w4 :: _ => mkClause ErrorCode <$> when_of w4
           | [] => None
           end
      else if bool_decide (w2 = "on")
      then match numeral w1, when_of w3 with
           | Some n, Some t => Some (mkClause (Code n) t)
           | _, _ => None
           end
      else None
  | _ => None
  end.

Fixpoint clauses (ws : list string) : list Clause :=
  match ws with
  | [] => []
  | _ :: rest =>
      match clause_at ws with
      | Some c => c :: clauses rest
      | None => clauses rest
      end
  end.

(** The [@return] line of a doc comment, if it has one, and its clauses. *)
Definition return_line (f : MemberFn) : option string :=
  find (fun l => bool_decide (String.prefix "@return" l = true)) (f_doc f).

Definition return_clauses (f : MemberFn) : list Clause :=
  match return_line f with
  | Some l => clauses (words l)
  | None => []
  end.

(** The numbers the clauses name. An "error code" is any value that is
    none of them. *)
Definition named_codes (cs : list Clause) : list Z :=
  omap (fun c => match cl_what c with Code n => Some n | ErrorCode => None end) cs.

Definition clause_fits (cs : list Clause) (c : Clause) (r : Z) : bool :=
  match cl_what c with
  | Code n => (r =? n)%Z
  | ErrorCode => negb (existsb (Z.eqb r) (named_codes cs))
  end.

(** What a returned value tells the caller under the documented clauses. *)
Definition signals (cs : list Clause) (r : Z) : list When :=
  map cl_when (filter (fun c => clause_fits cs c r = true) cs).

End ReturnDoc.

(** ** The class [Servo2D]: what the declaration guarantees *)

Module Servo2DProps.
Import Cpp Servo2DHeader ReturnDoc.

(** Membership in a list that is written out. *)
Ltac in_list :=
  cbn; repeat first [apply list_elem_of_here | apply list_elem_of_further].

Lemma Servo2D_method_names :
  method_names Servo2D =
    ["init"; "deInit"; "getInitialPrismSize"; "createInitialPrism";
     "spawnInitialScenes"; "updateLoop"; "eventListener"].
Proof. reflexivity. Qed.

Lemma Servo2D_methods :
  methods Servo2D =
    [init; deInit; getInitialPrismSize; createInitialPrism;
     spawnInitialScenes; updateLoop; eventListener].
Proof. reflexivity. Qed.

(** The header compiles against the base class the spec describes. *)
Lemma LandscapeApp_accepts : accepts LandscapeApp Servo2D = true.
Proof. by vm_compute. Qed.

(** A function marked [override] overrides in every base the class
    compiles against. *)
Lemma accepts_override B c f :
  accepts B c = true → f ∈ c_functions c → f_override f = true →
  overrides B f = true.
Proof.
  intros Ha Hf Ho. unfold accepts in Ha.
  apply andb_true_iff in Ha as [_ Ha].
  rewrite forallb_forall in Ha. apply list_elem_of_In in Hf.
  specialize (Ha f Hf). unfold override_ok in Ha.
  apply andb_true_iff in Ha as [Ha _]. by rewrite Ho in Ha.
Qed.

Lemma overrides_return_type B c f :
  accepts B c = true → f ∈ c_functions c → overrides B f = true →
  ∃ v, v ∈ b_virtuals B ∧ same_signature v f = true ∧ f_ret f = Some (v_ret v).
Proof.
  intros Ha Hf Ho. unfold accepts in Ha.
  apply andb_true_iff in Ha as [_ Ha].
  rewrite forallb_forall in Ha. apply list_elem_of_In in Hf.
  specialize (Ha f Hf). unfold override_ok in Ha.
  apply andb_true_iff in Ha as [_ Ha]. rewrite forallb_forall in Ha.
  unfold overrides in Ho. apply existsb_exists in Ho as (v & Hv & Hs).
  exists v. split; [by apply list_elem_of_In|]. split; [done|].
  specialize (Ha v Hv). rewrite Hs in Ha. by apply bool_decide_eq_true in Ha.
Qed.

(** Which of the seven methods override depends on the base class, which
    the sources do not contain: the header compiles against a base with the
    four virtual functions [init], [deInit], [updateLoop] and
    [eventListener], where the other three methods override nothing, and
    against a base with all seven, where every method overrides. *)
Lemma Servo2D_helper_methods_undetermined :
  (accepts LandscapeApp Servo2D = true
   ∧ filter (fun f => overrides LandscapeApp f = true) (methods Servo2D)
     = [init; deInit; updateLoop; eventListener])
  ∧ (accepts LandscapeApp_all Servo2D = true
     ∧ filter (fun f => overrides LandscapeApp_all f = true) (methods Servo2D)
       = methods Servo2D).
Proof. repeat split; by vm_compute. Qed.

(** The doc comments of the class that describe a returned value are those
    of [init] and [deInit]. *)
Lemma Servo2D_documented_returns :
  filter (fun f => return_clauses f ≠ []) (c_functions Servo2D) = [init; deInit].
Proof. by vm_compute. Qed.

(** The reading of a [@return] line follows its text: with another number
    in front of "on success" that number is the one that tells success. *)
Lemma clauses_follow_the_text :
  clauses (Shell.words "@return - 1 on success, error code on failure.")
    = [mkClause (Code 1) OnSuccess; mkClause ErrorCode OnFailure]
  ∧ signals (clauses (Shell.words "@return - 1 on success, error code on failure.")) 0
    = [OnFailure]
  ∧ clauses (Shell.words "@return - true to keep running") = [].
Proof. repeat split; by vm_compute. Qed.



(** X11: [updateLoop] takes one [float] and returns [bool], [eventListener]
    takes one [lumin::ServerEvent*] and returns [bool]; both are declared
    [virtual ... override], and every base class the header compiles
    against declares a virtual function of that name, parameter list and
    return type. *)
Theorem Servo2D_updateLoop_eventListener (B : BaseClass) :
  accepts B Servo2D = true →
  (param_types updateLoop = [TFloat] ∧ f_ret updateLoop = Some TBool)
  ∧ (param_types eventListener = [TPtr (TNamed ["lumin"] "ServerEvent")]
     ∧ f_ret eventListener = Some TBool)
  ∧ (f_virtual updateLoop = true ∧ f_override updateLoop = true
     ∧ f_virtual eventListener = true ∧ f_override eventListener = true)
  ∧ (∃ v, v ∈ b_virtuals B ∧ v_name v = "updateLoop"
          ∧ v_params v = [TFloat] ∧ v_ret v = TBool)
  ∧ (∃ v, v ∈ b_virtuals B ∧ v_name v = "eventListener"
          ∧ v_params v = [TPtr (TNamed ["lumin"] "ServerEvent")]
          ∧ v_ret v = TBool).
Proof.
  intros Ha.
  assert (Hu : updateLoop ∈ c_functions Servo2D) by in_list.
  assert (He : eventListener ∈ c_functions Servo2D) by in_list.
  pose proof (accepts_override B Servo2D updateLoop Ha Hu eq_refl) as Hou.
  pose proof (accepts_override B Servo2D eventListener Ha He eq_refl) as Hoe.
  do 3 (split; [by repeat split|]).
  split.
  - pose proof (overrides_return_type B Servo2D updateLoop Ha Hu Hou) as Hex.
    destruct Hex as (v & Hv & Hs & Hr).
    exists v. unfold same_signature in Hs.
    repeat (apply andb_true_iff in Hs as [Hs ?]).
    repeat match goal with H : bool_decide _ = true |- _ =>
      apply bool_decide_eq_true in H end.
    cbn in *. repeat split; congruence.
  - pose proof (overrides_return_type B Servo2D eventListener Ha He Hoe) as Hex.
    destruct Hex as (v & Hv & Hs & Hr).
    exists v. unfold same_signature in Hs.
    repeat (apply andb_true_iff in Hs as [Hs ?]).
    repeat match goal with H : bool_decide _ = true |- _ =>
      apply bool_decide_eq_true in H end.
    cbn in *. repeat split; congruence.
Qed.

Lemma Servo2D_updateLoop_eventListener_witness :
  accepts LandscapeApp Servo2D = true
  ∧ ∃ v, v ∈ b_virtuals LandscapeApp ∧ v_name v = "updateLoop"
         ∧ v_params v = [TFloat] ∧ v_ret v = TBool.
Proof.
  split; [by vm_compute|].
  apply (Servo2D_updateLoop_eventListener LandscapeApp). by vm_compute.
Defined.

(** C4: the copy constructor, the move constructor, the copy assignment
    operator and the move assignment operator of [Servo2D] are all declared
    [= delete]; for every object, constructing a copy of it, constructing
    from a move of it, copy-assigning it and move-assigning it are each
    ill-formed. *)
Theorem Servo2D_not_copyable_not_movable (o dst : Obj) :
  (declared_special Servo2D CopyCtor = Some copy_ctor
   ∧ declared_special Servo2D MoveCtor = Some move_ctor
   ∧ declared_special Servo2D CopyAssign = Some copy_assignment
   ∧ declared_special Servo2D MoveAssign = Some move_assignment)
  ∧ Forall (fun f => f_def f = Deleted)
           [copy_ctor; move_ctor; copy_assignment; move_assignment]
  ∧ copy_construct Servo2D o = IllFormed
  ∧ move_construct Servo2D o = IllFormed
  ∧ copy_assign Servo2D dst o = IllFormed
  ∧ move_assign Servo2D dst o = IllFormed.
Proof.
  split; [repeat split|]. split; [repeat constructor|].
  repeat split.
Qed.

(** C5: the class declares exactly two data members, [prism_] of type
    [lumin::Prism*] and [prismSceneManager_] of type [PrismSceneManager*];
    both are non-static pointers to types the header does not declare
    itself, and the class has no other data member. *)
Theorem Servo2D_data_members :
  map (fun d => (d_name d, d_type d)) (c_fields Servo2D) =
    [("prism_", TPtr (TNamed ["lumin"] "Prism"));
     ("prismSceneManager_", TPtr (TNamed [] "PrismSceneManager"))]
  ∧ length (c_fields Servo2D) = 2
  ∧ Forall (fun d => is_pointer (d_type d) = true
                     ∧ external_type Servo2D_h (d_type d) = true
                     ∧ d_static d = false)
           (c_fields Servo2D).
Proof.
  split; [reflexivity|]. split; [reflexivity|].
  repeat constructor; by vm_compute.
Qed.

End Servo2DProps.

(** ** The README: how the plugin is run and configured *)

Module ReadmeProps.
Import Shell GstPluginReadme.

(** Closed decidable statements about the snippets are settled by
    evaluation. *)
Ltac by_evaluation := apply (bool_decide_unpack _); vm_compute; exact I.

(** Only words in front of the command name become assignments, and their
    names are shell names. *)
Lemma parse_words_env_names ws :
  Forall (fun a => is_name (fst a) = true) (cmd_env (parse_words ws)).
Proof.
  induction ws as [|w ws IH]; cbn; [constructor|].
  destruct (assignment_of w) as [[n v]|] eqn:Ha; cbn; [|constructor].
  constructor; [|exact IH]. cbn. unfold assignment_of in Ha.
  destruct (split_at_eq w) as [[n' v']|]; [|discriminate].
  destruct (is_name n') eqn:Hn; [|discriminate]. by inversion Ha; subst.
Qed.

(** Splitting at a separator loses nothing: joining the segments with the
    separator gives the words back. *)
Lemma split_on_nonempty sep ws : split_on sep ws ≠ [].
Proof.
  destruct ws as [|w ws]; cbn; [done|].
  case_bool_decide; [done|]. by destruct (split_on sep ws).
Qed.

Lemma join_split_on sep ws : join_with sep (split_on sep ws) = ws.
Proof.
  induction ws as [|w ws IH]; cbn; [done|].
  pose proof (split_on_nonempty sep ws) as Hne.
  case_bool_decide as Hw.
  - subst w. destruct (split_on sep ws) as [|seg segs] eqn:Hs; [done|].
    cbn. cbn in IH. by rewrite IH.
  - destruct (split_on sep ws) as [|seg segs] eqn:Hs; [done|].
    destruct segs as [|seg' segs]; cbn in *; by rewrite IH.
Qed.

(** C8: the Run section of the README is one [gst-launch-1.0] command; in
    every [gst-launch-1.0] command of the README the pipeline is [servosrc],
    [queue], [videoflip] (with [video-direction=vert]) and [autovideosink],
    linked in that order, and nothing else; the Troubleshooting section
    inspects the plugin with [gst-inspect-1.0], by element name and by file. *)
Theorem readme_pipeline :
  map program (commands_of run) = [Some "gst-launch-1.0"]
  ∧ length launches = 2
  ∧ Forall (fun c => factories c = ["servosrc"; "queue"; "videoflip"; "autovideosink"])
           launches
  ∧ Forall (fun c => pipeline c =
                       [mkElement "servosrc" []; mkElement "queue" [];
                        mkElement "videoflip" [("video-direction", "vert")];
                        mkElement "autovideosink" []])
           launches
  ∧ map arguments inspections =
      [["servosrc"]; ["target/gstplugins/libgstservoplugin.so"]]
  ∧ map s_section
        (filter (fun sn => Exists (fun c => runs "gst-inspect-1.0" c = true)
                                  (commands_of sn)) README)
    = ["Troubleshooting"; "Troubleshooting"].
Proof.
  split; [by vm_compute|]. split; [by vm_compute|].
  split; [vm_compute; by repeat constructor|].
  split; [vm_compute; by repeat constructor|].
  split; by vm_compute.
Qed.

(** C9: the variables the commands of the README set are exactly
    [GST_PLUGIN_PATH], [GST_PLUGIN_SCANNER], [LD_LIBRARY_PATH] and
    [LD_PRELOAD]; every command sets a subset of these four and no other
    variable, and the last command sets all four. *)
Theorem readme_plugin_variables :
  configured_variables = plugin_variables
  ∧ Forall (fun c => assigned_vars c ⊆ plugin_variables) commands
  ∧ (assigned_vars <$> last commands) = Some plugin_variables
  ∧ ((map fst ∘ cmd_env) <$> last (commands_of all_together)) =
      Some ["GST_PLUGIN_SCANNER"; "LD_PRELOAD"; "GST_PLUGIN_PATH"; "LD_LIBRARY_PATH"].
Proof.
  split; [by_evaluation|]. split; [by_evaluation|].
  split; [by_evaluation|]. by vm_compute.
Qed.

End ReadmeProps.


(** ** More on the class [Servo2D]: what it demands of the host's base
    class *)

Module Servo2DInterface.
Import Cpp Servo2DHeader.

(** What [override] demands of the base, for any class: a virtual function
    of the same name, parameter types, const qualification and return
    type. *)
Lemma override_contract B c f n :
  accepts B c = true → f ∈ c_functions c → f_override f = true →
  f_kind f = Method n →
  ∃ v, v ∈ b_virtuals B ∧ v_name v = n ∧ v_params v = param_types f
       ∧ v_const v = f_const f ∧ f_ret f = Some (v_ret v).
Proof.
  intros Ha Hf Ho Hk. unfold accepts in Ha.
  apply andb_true_iff in Ha as [_ Ha].
  rewrite forallb_forall in Ha. apply list_elem_of_In in Hf.
  specialize (Ha f Hf). unfold override_ok in Ha.
  apply andb_true_iff in Ha as [Hov Hret]. rewrite Ho in Hov. cbn in Hov.
  unfold overrides in Hov. apply existsb_exists in Hov as (v & Hv & Hs).
  rewrite forallb_forall in Hret. specialize (Hret v Hv).
  rewrite Hs in Hret. cbn in Hret. apply bool_decide_eq_true in Hret.
  unfold same_signature in Hs.
  apply andb_true_iff in Hs as [Hs Hc]. apply andb_true_iff in Hs as [Hn Hp].
  apply bool_decide_eq_true in Hn, Hp, Hc.
  exists v. split; [by apply list_elem_of_In|].
  repeat split; [congruence|done|done|done].
Qed.

(** X2: whatever base class the header compiles against declares
    [init] and [deInit] as virtual member functions without parameters, not
    const, returning [int]. *)
Theorem Servo2D_init_deInit_base_contract (B : BaseClass) :
  accepts B Servo2D = true →
  (∃ v, v ∈ b_virtuals B ∧ v_name v = "init" ∧ v_params v = []
        ∧ v_const v = false ∧ v_ret v = TInt)
  ∧ (∃ v, v ∈ b_virtuals B ∧ v_name v = "deInit" ∧ v_params v = []
          ∧ v_const v = false ∧ v_ret v = TInt).
Proof.
  intros Ha. split.
  - destruct (override_contract B Servo2D init "init" Ha)
      as (v & Hv & Hn & Hp & Hc & Hr); [|done|done|].
    { cbn. repeat first [apply list_elem_of_here | apply list_elem_of_further]. }
    exists v. cbn in *. repeat split; congruence.
  - destruct (override_contract B Servo2D deInit "deInit" Ha)
      as (v & Hv & Hn & Hp & Hc & Hr); [|done|done|].
    { cbn. repeat first [apply list_elem_of_here | apply list_elem_of_further]. }
    exists v. cbn in *. repeat split; congruence.
Qed.

Lemma Servo2D_init_deInit_base_contract_witness :
  accepts LandscapeApp Servo2D = true
  ∧ ∃ v, v ∈ b_virtuals LandscapeApp ∧ v_name v = "init" ∧ v_params v = []
         ∧ v_const v = false ∧ v_ret v = TInt.
Proof.
  split; [by vm_compute|].
  apply (Servo2D_init_deInit_base_contract LandscapeApp). by vm_compute.
Defined.

End Servo2DInterface.

(** ** More on the README: directories, patterns and expanded paths *)

Module ReadmeUsage.
Import Shell GstPluginReadme.

Ltac by_evaluation := apply (bool_decide_unpack _); vm_compute; exact I.

(** *** Texts and their characters *)

Lemma string_of_list_ascii_app l1 l2 :
  string_of_list_ascii (l1 ++ l2) =
    String.append (string_of_list_ascii l1) (string_of_list_ascii l2).
Proof. induction l1 as [|c l1 IH]; simpl; [done|]. by rewrite IH. Qed.

Lemma list_ascii_of_string_app s1 s2 :
  list_ascii_of_string (String.append s1 s2) =
    list_ascii_of_string s1 ++ list_ascii_of_string s2.
Proof. induction s1 as [|c s1 IH]; simpl; [done|]. by rewrite IH. Qed.

(** *** Fields *)

Lemma fields_nonempty sep cs : fields sep cs ≠ [].
Proof.
  destruct cs as [|c cs]; cbn; [done|].
  case_bool_decide; [done|]. by destruct (fields sep cs).
Qed.

Lemma fields_no_sep sep p : sep ∉ p → fields sep p = [p].
Proof.
  induction p as [|c p IH]; intros Hp; cbn; [done|].
  apply not_elem_of_cons in Hp as [Hc Hp].
  rewrite bool_decide_eq_false_2 by done. by rewrite IH.
Qed.

Lemma fields_app_sep sep p q :
  sep ∉ p → fields sep (p ++ sep :: q) = p :: fields sep q.
Proof.
  induction p as [|c p IH]; intros Hp; cbn.
  - by rewrite bool_decide_eq_true_2.
  - apply not_elem_of_cons in Hp as [Hc Hp].
    rewrite bool_decide_eq_false_2 by done. by rewrite IH.
Qed.

Lemma fields_length sep cs : length (fields sep cs) = S (occurrences sep cs).
Proof.
  unfold occurrences. induction cs as [|c cs IH]; [done|].
  cbn [fields]. destruct (decide (c = sep)) as [Heq|Hne].
  - rewrite bool_decide_eq_true_2, filter_cons_True by done.
    cbn [length]. by rewrite IH.
  - rewrite bool_decide_eq_false_2, filter_cons_False by done.
    pose proof (fields_nonempty sep cs).
    destruct (fields sep cs) as [|f fs]; [done|]. exact IH.
Qed.

(** *** Patterns *)

Lemma glob_star_last s : glob ["*"%char] s = true ↔ "/"%char ∉ s.
Proof.
  induction s as [|d s IH].
  - cbn. split; [intros _; apply not_elem_of_nil|done].
  - rewrite not_elem_of_cons. cbn in *.
    destruct (bool_decide (d = "/"%char)) eqn:Hd; cbn.
    + apply bool_decide_eq_true in Hd. split; [done|]. intros [? _]. done.
    + apply bool_decide_eq_false in Hd. rewrite IH. split; [|tauto].
      intros H. split; [congruence|done].
Qed.

Lemma glob_literal c p s :
  c ≠ "*"%char →
  glob (c :: p) s = true ↔ ∃ s', s = c :: s' ∧ glob p s' = true.
Proof.
  intros Hc. cbn. rewrite bool_decide_eq_false_2 by done.
  destruct s as [|d s].
  - split; [done|]. by intros (s' & ? & _).
  - rewrite andb_true_iff, bool_decide_eq_true. split.
    + intros [-> Hg]. by exists s.
    + intros (s' & Heq & Hg). by inversion Heq; subst.
Qed.

Lemma glob_literal_prefix pre p s :
  "*"%char ∉ pre →
  glob (pre ++ p) s = true ↔ ∃ s', s = pre ++ s' ∧ glob p s' = true.
Proof.
  revert s. induction pre as [|c pre IH]; intros s Hpre.
  - cbn. split; [by exists s|]. by intros (s' & -> & ?).
  - apply not_elem_of_cons in Hpre as [Hc Hpre].
    change ((c :: pre) ++ p) with (c :: (pre ++ p)).
    rewrite glob_literal by done. split.
    + intros (s1 & -> & Hg). apply IH in Hg as (s' & -> & Hg); [|done].
      by exists s'.
    + intros (s' & -> & Hg). exists (pre ++ s'). split; [done|].
      apply IH; [done|]. by exists s'.
Qed.

(** *** The commands of the README *)

(** X4: the directory the Install section creates is the one the plugin is
    copied into, the one [GST_PLUGIN_PATH] names in the Run command and in
    both inspection commands, and the one that holds the file the second
    inspection names; no GStreamer tool is run without [GST_PLUGIN_PATH]. *)
Theorem readme_plugin_directory :
  arguments (command_of install_mkdir) = ["target/gstplugins"]
  ∧ last (arguments (command_of install_cp)) = Some "target/gstplugins"
  ∧ Forall (fun c => setting "GST_PLUGIN_PATH" (cmd_env c) = Some "target/gstplugins")
           [command_of run; command_of inspect_element; command_of inspect_file]
  ∧ map dirname (arguments (command_of inspect_file)) = ["target/gstplugins"]
  ∧ length (filter (fun c => gst_tool c = true) commands) = 4
  ∧ Forall (fun c => is_Some (setting "GST_PLUGIN_PATH" (cmd_env c)))
           (filter (fun c => gst_tool c = true) commands).
Proof.
  split; [by vm_compute|]. split; [by vm_compute|].
  split; [repeat constructor|]. split; [by vm_compute|].
  split; [by vm_compute|]. by_evaluation.
Qed.

(** X5: the pattern of the install command, [libgstservoplugin.*] in
    [target/release], matches exactly the files of that directory whose name
    starts with [libgstservoplugin.], whatever follows the dot, and nothing
    in a subdirectory; the file the README later inspects and preloads has
    such a name. *)
Theorem install_pattern_matches (name : string) :
  head (arguments (command_of install_cp)) = Some "target/release/libgstservoplugin.*"
  ∧ (matches "target/release/libgstservoplugin.*" name = true ↔
       ∃ ext, name = String.append "target/release/libgstservoplugin." ext
              ∧ "/"%char ∉ list_ascii_of_string ext)
  ∧ matches (basename "target/release/libgstservoplugin.*")
            (basename "target/gstplugins/libgstservoplugin.so") = true.
Proof.
  split; [by vm_compute|]. split; [|by vm_compute].
  unfold matches.
  change (list_ascii_of_string "target/release/libgstservoplugin.*")
    with (list_ascii_of_string "target/release/libgstservoplugin." ++ ["*"%char]).
  rewrite glob_literal_prefix by by_evaluation. split.
  - intros (s' & Hs & Hg). exists (string_of_list_ascii s'). split.
    + rewrite <- (string_of_list_ascii_of_string name), Hs.
      rewrite string_of_list_ascii_app. by rewrite string_of_list_ascii_of_string.
    + rewrite list_ascii_of_string_of_list_ascii. by apply glob_star_last.
  - intros (ext & -> & Hext). exists (list_ascii_of_string ext). split.
    + by rewrite list_ascii_of_string_app.
    + by apply glob_star_last.
Qed.

(** X6: the last command of the README is the Run command with the four
    troubleshooting settings in front of it: its words after the assignments
    are those of the Run command, and its assignments are those of the
    snippets for the scanner, the preload, the plugin path and the library
    path, which run no command themselves. *)
Theorem all_together_composition :
  cmd_argv (command_of all_together) = cmd_argv (command_of run)
  ∧ cmd_env (command_of all_together) =
      cmd_env (command_of scanner) ++ cmd_env (command_of preload)
      ++ cmd_env (command_of plugin_path) ++ cmd_env (command_of library_path)
  ∧ Forall (fun sn => cmd_argv (command_of sn) = [] ∧ length (cmd_env (command_of sn)) = 1)
           [scanner; preload; plugin_path; library_path].
Proof.
  split; [by vm_compute|]. split; [by vm_compute|].
  repeat constructor.
Qed.

(** *** Expanded paths *)

(** The characters of the plugin search path of the last command, for any
    values of the variables. *)
Lemma plugin_path_chars rho :
  expand_chars rho 0
    (list_ascii_of_string
       "$PWD/target/gstplugins/:$PWD/support/linux/gstreamer/gst/lib")
  = (list_ascii_of_string (rho "PWD")
       ++ list_ascii_of_string "/target/gstplugins/")
    ++ ":"%char
    :: (list_ascii_of_string (rho "PWD")
          ++ list_ascii_of_string "/support/linux/gstreamer/gst/lib").
Proof.
  rewrite <- app_assoc. vm_compute. reflexivity.
Qed.

(** Text without [$] expands to itself. *)
Lemma expand_chars_plain rho l :
  "$"%char ∉ l → expand_chars rho 0 l = l.
Proof.
  induction l as [|c l IH]; intros Hl; [done|].
  apply not_elem_of_cons in Hl as [Hc Hl]. cbn [expand_chars].
  rewrite bool_decide_eq_false_2 by done. by rewrite IH.
Qed.

(** [$PWD/] in front of a text: the value of [PWD], the slash, and the
    expansion of the rest. *)
Lemma expand_chars_pwd rho l :
  expand_chars rho 0 (list_ascii_of_string "$PWD/" ++ l)
  = list_ascii_of_string (rho "PWD") ++ "/"%char :: expand_chars rho 0 l.
Proof. vm_compute. reflexivity. Qed.

(** A path written [$PWD/rel] is [rel] seen from the working directory,
    for every value of [PWD]. *)
Lemma expand_resolve rho rel :
  "$"%char ∉ list_ascii_of_string rel →
  expand rho (String.append "$PWD/" rel) = resolve (rho "PWD") rel.
Proof.
  intros Hrel. unfold expand, resolve.
  rewrite list_ascii_of_string_app, expand_chars_pwd.
  rewrite expand_chars_plain by done.
  change ("/"%char :: list_ascii_of_string rel)
    with (list_ascii_of_string (String.append "/" rel)).
  by rewrite string_of_list_ascii_app, !string_of_list_ascii_of_string.
Qed.

(** X7: in the last command of the README, whatever the working directory,
    the scanner, the preloaded plugin and the library path are the paths
    [support/linux/gstreamer/gst/libexec/gstreamer-1.0/gst-plugin-scanner],
    [target/gstplugins/libgstservoplugin.so] (the file the second inspection
    names) and [support/linux/gstreamer/gst/lib] seen from the working
    directory; no other variable than [PWD] enters these values. *)
Theorem all_together_absolute (rho : string → string) :
  map fst (cmd_env (command_of all_together)) =
    ["GST_PLUGIN_SCANNER"; "LD_PRELOAD"; "GST_PLUGIN_PATH"; "LD_LIBRARY_PATH"]
  ∧ (expand rho <$> setting "GST_PLUGIN_SCANNER" (cmd_env (command_of all_together))) =
      Some (resolve (rho "PWD")
              "support/linux/gstreamer/gst/libexec/gstreamer-1.0/gst-plugin-scanner")
  ∧ (expand rho <$> setting "LD_PRELOAD" (cmd_env (command_of all_together))) =
      (resolve (rho "PWD") <$> head (arguments (command_of inspect_file)))
  ∧ (expand rho <$> setting "LD_LIBRARY_PATH" (cmd_env (command_of all_together))) =
      Some (resolve (rho "PWD") "support/linux/gstreamer/gst/lib").
Proof.
  split; [by vm_compute|].
  split; [|split].
  - change (setting "GST_PLUGIN_SCANNER" (cmd_env (command_of all_together)))
      with (Some (String.append "$PWD/"
        "support/linux/gstreamer/gst/libexec/gstreamer-1.0/gst-plugin-scanner")).
    cbn [fmap option_fmap option_map]. f_equal. apply expand_resolve. by_evaluation.
  - change (setting "LD_PRELOAD" (cmd_env (command_of all_together)))
      with (Some (String.append "$PWD/" "target/gstplugins/libgstservoplugin.so")).
    change (head (arguments (command_of inspect_file)))
      with (Some "target/gstplugins/libgstservoplugin.so").
    cbn [fmap option_fmap option_map]. f_equal. apply expand_resolve. by_evaluation.
  - change (setting "LD_LIBRARY_PATH" (cmd_env (command_of all_together)))
      with (Some (String.append "$PWD/" "support/linux/gstreamer/gst/lib")).
    cbn [fmap option_fmap option_map]. f_equal. apply expand_resolve. by_evaluation.
Qed.

(** X8: when the name of the working directory has no colon, the plugin
    search path of the last command has exactly two entries: the plugin
    directory of the Run command and the library directory, both seen from
    the working directory (the first with a slash at its end). *)
Theorem all_together_search_path (rho : string → string) (v : string) :
  setting "GST_PLUGIN_PATH" (cmd_env (command_of all_together)) = Some v →
  ":"%char ∉ list_ascii_of_string (rho "PWD") →
  path_entries (expand rho v) =
    [resolve (rho "PWD") "target/gstplugins/";
     resolve (rho "PWD") "support/linux/gstreamer/gst/lib"].
Proof.
  intros Hv Hpwd. vm_compute in Hv. injection Hv as <-.
  unfold path_entries, expand.
  rewrite list_ascii_of_string_of_list_ascii.
  rewrite (plugin_path_chars rho).
  rewrite fields_app_sep.
  2:{ apply not_elem_of_app. split; [done|by_evaluation]. }
  rewrite fields_no_sep.
  2:{ apply not_elem_of_app. split; [done|by_evaluation]. }
  cbn [map]. unfold resolve.
  by rewrite !string_of_list_ascii_app, !string_of_list_ascii_of_string.
Qed.

Lemma all_together_search_path_witness :
  setting "GST_PLUGIN_PATH" (cmd_env (command_of all_together)) =
    Some "$PWD/target/gstplugins/:$PWD/support/linux/gstreamer/gst/lib"
  ∧ (":"%char ∉ list_ascii_of_string "/home/servo")
  ∧ path_entries
      (expand (fun _ => "/home/servo")
              "$PWD/target/gstplugins/:$PWD/support/linux/gstreamer/gst/lib") =
    [resolve "/home/servo" "target/gstplugins/";
     resolve "/home/servo" "support/linux/gstreamer/gst/lib"].
Proof.
  split; [by vm_compute|]. split; [by_evaluation|].
  apply (all_together_search_path (fun _ => "/home/servo")
           "$PWD/target/gstplugins/:$PWD/support/linux/gstreamer/gst/lib").
  - by vm_compute.
  - by_evaluation.
Defined.

(** X9: every colon in the name of the working directory adds two entries
    to the plugin search path of the last command: the path has two entries
    plus twice the number of colons. *)
Theorem all_together_search_path_length (rho : string → string) :
  ((fun v => length (path_entries (expand rho v)))
     <$> setting "GST_PLUGIN_PATH" (cmd_env (command_of all_together))) =
    Some (2 + 2 * occurrences ":"%char (list_ascii_of_string (rho "PWD"))).
Proof.
  change (setting "GST_PLUGIN_PATH" (cmd_env (command_of all_together)))
    with (Some "$PWD/target/gstplugins/:$PWD/support/linux/gstreamer/gst/lib").
  cbn [fmap option_fmap option_map]. f_equal.
  unfold path_entries, expand.
  rewrite length_map, list_ascii_of_string_of_list_ascii, fields_length.
  rewrite (plugin_path_chars rho). unfold occurrences.
  rewrite filter_app, filter_cons_True, !filter_app by done.
  rewrite !length_app. cbn [length]. rewrite !length_app.
  change (length (filter (fun c => c = ":"%char)
                         (list_ascii_of_string "/target/gstplugins/"))) with 0.
  change (length (filter (fun c => c = ":"%char)
                         (list_ascii_of_string "/support/linux/gstreamer/gst/lib"))) with 0.
  lia.
Qed.

(** X10: every code block of the README is one command: each of its lines
    but the last ends with a backslash, the last one does not, and joining
    them gives a single logical line. *)
Theorem readme_blocks_are_single_commands :
  Forall (fun sn =>
            length (commands_of sn) = 1
            ∧ Forall (fun l => is_Some (continued l)) (removelast (s_lines sn))
            ∧ (continued <$> last (s_lines sn)) = Some None)
         README
  ∧ length commands = length README.
Proof.
  split; [|by vm_compute].
  unfold README. repeat (apply Forall_cons_2 || apply Forall_nil_2);
    (split; [by vm_compute|]; split; [by_evaluation|by vm_compute]).
Qed.

End ReadmeUsage.
